(** * The inline live-snippet renderer: [src/stories/components/Editor.tsx]

    A shallow embedding of the [Editor] component and of the module that
    declares it, together with the properties of its classification, sizing,
    state and configuration.

    Conventions.
    - A JavaScript string is a [string]; only the code units 13 (carriage
      return) and 10 (line feed) are ever inspected by the component.
    - A JavaScript number that holds an array length or a pixel size is a
      [Z]; the products and sums computed here are far below 2^53, where
      double arithmetic is exact.
    - An object literal is a [JsValue] built with [JObj], its keys in source
      order; an absent key reads as [None]. *)

From Stdlib Require Import ZArith Ascii String List Lia Bool.
From stdpp Require Import base option list strings gmap.

Set Warnings "-register-all".
Local Open Scope Z_scope.

(** ** The fragment of the JavaScript library the component calls *)

Module JS.

Definition CR : ascii := "013"%char.
Definition LF : ascii := "010"%char.

(** Regular expressions, as far as the component writes them: pattern
    characters in sequence and the ordered disjunction [r1|r2]. *)
Inductive RegExp : Type :=
| Lit (p : string)
| Alt (r1 r2 : RegExp).

(** [match_lit p s]: the pattern characters [p] read off the front of [s];
    the result is the number of code units consumed. *)
Fixpoint match_lit (p s : string) : option nat :=
  match p with
  | EmptyString => Some O
  | String a p' =>
      match s with
      | EmptyString => None
      | String b s' => if Ascii.eqb a b then S <$> match_lit p' s' else None
      end
  end.

(** A sticky match of [r] at the front of [s].  A disjunction takes its
    left alternative whenever that one matches. *)
Fixpoint exec_at (r : RegExp) (s : string) : option nat :=
  match r with
  | Lit p => match_lit p s
  | Alt r1 r2 =>
      match exec_at r1 s with
      | Some n => Some n
      | None => exec_at r2 s
      end
  end.

(** The loop of [String.prototype.split] on a regular expression without
    capture groups and without a limit.  [s] is what remains to be read,
    [skip] the code units of [s] still covered by the last match, [cur]
    the piece collected since the end of the last match. *)
Fixpoint split_from (r : RegExp) (s : string) (skip : nat) (cur : string)
  : list string :=
  match s with
  | EmptyString => [cur]
  | String c s' =>
      match skip with
      | S k => split_from r s' k cur
      | O =>
          match exec_at r s with
          | None => split_from r s' O (cur +:+ String c EmptyString)
          | Some O =>
              if decide (cur = EmptyString)
              then split_from r s' O (String c EmptyString)
              else cur :: split_from r s' O (String c EmptyString)
          | Some (S k) => cur :: split_from r s' k EmptyString
          end
      end
  end.

(** [s.split(r)] *)
Definition split (s : string) (r : RegExp) : list string :=
  match s with
  | EmptyString =>
      match exec_at r EmptyString with
      | Some _ => []
      | None => [EmptyString]
      end
  | String _ _ => split_from r s O EmptyString
  end.

(** The result of [typeof]. *)
Inductive TypeTag : Type :=
| TString | TNumber | TBoolean | TObject | TUndefined.

(** Object literals and the primitive values stored in them. *)
Inductive JsValue : Type :=
| JStr (s : string)
| JNum (n : Z)
| JBool (b : bool)
| JObj (fields : list (string * JsValue)).

(** [o.k]; [None] stands for [undefined], also when [o] is no object. *)
Definition get (k : string) (o : JsValue) : option JsValue :=
  match o with
  | JObj fields => snd <$> List.find (fun kv => bool_decide (kv.1 = k)) fields
  | _ => None
  end.

End JS.

(** ** The engine: [monaco-editor]'s TypeScript defaults *)

Module Monaco.

Inductive ScriptTarget : Type :=
| ES3 | ES5 | ES2015 | ES2016 | ES2017 | ES2018 | ES2019 | ES2020
| ESNext | JSON.

(** [Latest = ESNext] in the enumeration: one value under two names. *)
Definition Latest : ScriptTarget := ESNext.

Inductive JsxEmit : Type :=
| JsxNone | Preserve | React | ReactNative.

Inductive ModuleResolutionKind : Type :=
| Classic | NodeJs.

Inductive ModuleKind : Type :=
| ModNone | CommonJS | AMD | UMD | System | ModES2015 | ModESNext.

(** Every key of [CompilerOptions] is optional; these are the ones the
    module writes. *)
Record CompilerOptions : Type := {
  target : option ScriptTarget;
  allowNonTsExtensions : option bool;
  jsx : option JsxEmit;
  moduleResolution : option ModuleResolutionKind;
  module : option ModuleKind;
  noEmit : option bool;
  strict : option bool;
}.

End Monaco.

(** ** React values and elements *)

(** [React.ReactNode], flattened to what [typeof] can tell apart. *)
Inductive ReactNode : Type :=
| NodeString (s : string)
| NodeNumber (n : Z)
| NodeBoolean (b : bool)
| NodeNull
| NodeUndefined
| NodeElement (type : string).

Definition typeof (v : ReactNode) : JS.TypeTag :=
  match v with
  | NodeString _ => JS.TString
  | NodeNumber _ => JS.TNumber
  | NodeBoolean _ => JS.TBoolean
  | NodeNull => JS.TObject
  | NodeUndefined => JS.TUndefined
  | NodeElement _ => JS.TObject
  end.

(** [typeof v === "string"], with the narrowed value when it holds. *)
Definition narrow_string (v : ReactNode) : option string :=
  match v with
  | NodeString s => Some s
  | _ => None
  end.

(** [interface EditorProps]: an omitted [children] is [undefined], an
    omitted [className] is [None]. *)
Record EditorProps : Type := {
  children : ReactNode;
  className : option string;
}.

(** The props handed to [<MonacoEditor>].  [onChange] is kept as the value
    its body passes to [setCode]. *)
Record MonacoEditorProps : Type := {
  defaultValue : string;
  value : string;
  onChange : string -> ReactNode;
  height : Z;
  width : string;
  language : string;
  options : JS.JsValue;
}.

(** The two element trees [Editor] returns. *)
Inductive Element : Type :=
| Div (style : JS.JsValue) (editor : MonacoEditorProps)
| Span (style : JS.JsValue) (content : ReactNode).

(** ** The component *)

(** [/\r\n|\r|\n/] *)
Definition line_sep : JS.RegExp :=
  JS.Alt (JS.Lit (String JS.CR (String JS.LF EmptyString)))
    (JS.Alt (JS.Lit (String JS.CR EmptyString))
            (JS.Lit (String JS.LF EmptyString))).

(** [React.useState(initial)]: the initial value is read on the first render
    only, when the component has no cell yet. *)
Definition useState (initial : ReactNode) (cell : option ReactNode) : ReactNode :=
  match cell with
  | None => initial
  | Some v => v
  end.

(** [code.split(/\r\n|\r|\n/).length * 19 + 1] *)
Definition editor_height (code : string) : Z :=
  Z.of_nat (length (JS.split code line_sep)) * 19 + 1.

Definition wrapper_style : JS.JsValue :=
  JS.JObj [ ("backgroundColor", JS.JStr "#1e1e1e");
            ("padding", JS.JStr "20px 10px");
            ("borderRadius", JS.JNum 10) ].

Definition editor_options : JS.JsValue :=
  JS.JObj [ ("scrollbar", JS.JObj [ ("vertical", JS.JStr "hidden");
                                    ("verticalHasArrows", JS.JBool false);
                                    ("verticalScrollbarSize", JS.JNum 0);
                                    ("verticalSliderSize", JS.JNum 0) ]);
            ("scrollBeyondLastLine", JS.JBool false);
            ("theme", JS.JStr "vs-dark");
            ("minimap", JS.JObj [ ("enabled", JS.JBool false) ]);
            ("folding", JS.JBool false) ].

Definition span_style : JS.JsValue :=
  JS.JObj [ ("whiteSpace", JS.JStr "pre");
            ("display", JS.JStr "inline-block") ].

(** The element of the first [return]. *)
Definition live_element (code : string) : Element :=
  Div wrapper_style
    {| defaultValue := code;
       value := code;
       onChange := fun newCode => NodeString newCode;
       height := editor_height code;
       width := "100%";
       language := "typescript";
       options := editor_options |}.

(** The element of the last [return]. *)
Definition static_element (children : ReactNode) : Element :=
  Span span_style children.

(** [export const Editor = ({ children, className }) => ...].  The function
    is given the cell of its [useState] call ([None] on the first render)
    and returns the value of [code] together with the element. *)
Definition Editor (props : EditorProps) (cell : option ReactNode)
  : ReactNode * Element :=
  let code := useState (children props) cell in
  (code,
   if bool_decide (className props = Some "lang-tsx") then
     match narrow_string code with
     | Some src => live_element src
     | None => static_element (children props)
     end
   else static_element (children props)).

(** The top-level statement of the module: the options passed to
    [languages.typescript.typescriptDefaults.setCompilerOptions]. *)
Definition compilerOptions : Monaco.CompilerOptions :=
  {| Monaco.target := Some Monaco.ESNext;
     Monaco.allowNonTsExtensions := Some true;
     Monaco.jsx := Some Monaco.React;
     Monaco.moduleResolution := Some Monaco.NodeJs;
     Monaco.module := Some Monaco.CommonJS;
     Monaco.noEmit := Some true;
     Monaco.strict := Some true |}.

(** ** One mounted component: its props and the cell of its [useState] *)

Record Instance : Type := {
  inst_props : EditorProps;
  inst_code : ReactNode;
}.

(** First render: the cell is created from the value [useState] returns. *)
Definition mount (props : EditorProps) : Instance :=
  {| inst_props := props; inst_code := (Editor props None).1 |}.

(** What the instance shows: the element of a render on its cell. *)
Definition render (i : Instance) : Element :=
  (Editor (inst_props i) (Some (inst_code i))).2.

(** A render of the parent with new props; the cell stays. *)
Definition rerender (props' : EditorProps) (i : Instance) : Instance :=
  {| inst_props := props'; inst_code := (Editor props' (Some (inst_code i))).1 |}.

(** The engine reports an edit: the [onChange] of the element on screen runs
    and [setCode] stores its argument.  A [<span>] has no such handler. *)
Definition change (newCode : string) (i : Instance) : option Instance :=
  match render i with
  | Div _ ed => Some {| inst_props := inst_props i; inst_code := onChange ed newCode |}
  | Span _ _ => None
  end.

(** The text the editing surface is told to display ([value]). *)
Definition buffer (i : Instance) : option string :=
  match render i with
  | Div _ ed => Some (value ed)
  | Span _ _ => None
  end.

Inductive Classification : Type := Live | Static.

(** Which of the two [return]s a block takes when it is first rendered. *)
Definition classify (props : EditorProps) : Classification :=
  match render (mount props) with
  | Div _ _ => Live
  | Span _ _ => Static
  end.

(** ** The process: module evaluation and the mounted instances *)

Inductive Event : Type :=
| Configured (o : Monaco.CompilerOptions)
| Mounted (id : nat).

Record Process : Type := {
  evaluated : bool;
  typescriptDefaults : option Monaco.CompilerOptions;
  trace : list Event;
  instances : gmap nat Instance;
}.

Definition start : Process :=
  {| evaluated := false; typescriptDefaults := None; trace := []; instances := ∅ |}.

(** [languages.typescript.typescriptDefaults.setCompilerOptions(o)] *)
Definition setCompilerOptions (o : Monaco.CompilerOptions) (p : Process) : Process :=
  {| evaluated := evaluated p;
     typescriptDefaults := Some o;
     trace := trace p ++ [Configured o];
     instances := instances p |}.

(** The module body, top to bottom: the configuration call, then the
    declaration of [Editor], after which the export can be used. *)
Definition module_body (p : Process) : Process :=
  let p1 := setCompilerOptions compilerOptions p in
  {| evaluated := true;
     typescriptDefaults := typescriptDefaults p1;
     trace := trace p1;
     instances := instances p1 |}.

(** An [import] of the module evaluates its body the first time only. *)
Definition import_module (p : Process) : Process :=
  if evaluated p then p else module_body p.

Inductive Action : Type :=
| Import
| Mount (id : nat) (props : EditorProps)
| Rerender (id : nat) (props : EditorProps)
| Change (id : nat) (newCode : string)
| Unmount (id : nat).

Definition with_instances (p : Process) (m : gmap nat Instance) (evs : list Event)
  : Process :=
  {| evaluated := evaluated p;
     typescriptDefaults := typescriptDefaults p;
     trace := trace p ++ evs;
     instances := m |}.

(** One step of the page.  [Editor] can be called only once the module that
    exports it has been evaluated; ids of mounted instances are fresh. *)
Definition step (a : Action) (p : Process) : option Process :=
  match a with
  | Import => Some (import_module p)
  | Mount id props =>
      if evaluated p then
        match instances p !! id with
        | Some _ => None
        | None => Some (with_instances p (<[id := mount props]> (instances p)) [Mounted id])
        end
      else None
  | Rerender id props =>
      i ← instances p !! id;
      Some (with_instances p (<[id := rerender props i]> (instances p)) [])
  | Change id newCode =>
      i ← instances p !! id;
      i' ← change newCode i;
      Some (with_instances p (<[id := i']> (instances p)) [])
  | Unmount id =>
      i ← instances p !! id;
      Some (with_instances p (delete id (instances p)) [])
  end.

Fixpoint run (acts : list Action) (p : Process) : option Process :=
  match acts with
  | [] => Some p
  | a :: acts' => p' ← step a p; run acts' p'
  end.

(** The instance an action is addressed to. *)
Definition target (a : Action) : option nat :=
  match a with
  | Import => None
  | Mount id _ | Rerender id _ | Change id _ | Unmount id => Some id
  end.

(** ** Attaching an element to the document

    React commits the element a component returned.  [attached] tells
    whether the engine managed to create its editing surface inside the
    [<div>]; when it did not, the exception leaves the component: [Editor]
    is a function component, it declares no error boundary and no handler. *)
Inductive Committed : Type :=
| Shown (e : Element)
| Thrown.

Definition commit (attached : bool) (e : Element) : Committed :=
  match e with
  | Div _ _ => if attached then Shown e else Thrown
  | Span _ _ => Shown e
  end.

(** ** Vocabulary of the specification *)

Definition lineHeightConstant : Z := 19.
Definition paddingConstant : Z := 1.

(** The number of line breaks in a text: every carriage return is one, and
    every line feed that does not directly follow a carriage return.
    [after_cr] tells whether the code unit before [s] was a carriage return. *)
Fixpoint line_breaks_after (after_cr : bool) (s : string) : nat :=
  match s with
  | EmptyString => O
  | String c s' =>
      ((if Ascii.eqb c JS.CR then 1
        else if Ascii.eqb c JS.LF then (if after_cr then 0 else 1)
        else 0) + line_breaks_after (Ascii.eqb c JS.CR) s')%nat
  end.

Definition line_breaks (s : string) : nat := line_breaks_after false s.

(** The three line terminators, as strings. *)
Definition cr : string := String JS.CR EmptyString.
Definition lf : string := String JS.LF EmptyString.
Definition crlf : string := String JS.CR (String JS.LF EmptyString).

Definition is_line_break (b : string) : Prop := b = crlf \/ b = cr \/ b = lf.

(** [join sep lines]: the lines with [sep] between them. *)
Fixpoint join (sep : string) (lines : list string) : string :=
  match lines with
  | [] => EmptyString
  | [l] => l
  | l :: rest => l +:+ sep +:+ join sep rest
  end.

(** A text without carriage return and without line feed. *)
Fixpoint break_free (s : string) : bool :=
  match s with
  | EmptyString => true
  | String c s' => negb (Ascii.eqb c JS.CR) && negb (Ascii.eqb c JS.LF) && break_free s'
  end.

(** Whether the last code unit of [s] is a carriage return ([after_cr] when
    [s] is empty), and whether its first code unit is a line feed. *)
Fixpoint ends_with_cr (after_cr : bool) (s : string) : bool :=
  match s with
  | EmptyString => after_cr
  | String c s' => ends_with_cr (Ascii.eqb c JS.CR) s'
  end.

Definition starts_with_lf (s : string) : bool :=
  match s with
  | EmptyString => false
  | String c _ => Ascii.eqb c JS.LF
  end.

(** A run of edits on one instance, first to last. *)
Fixpoint changes (edits : list string) (i : Instance) : option Instance :=
  match edits with
  | [] => Some i
  | e :: edits' => i' ← change e i; changes edits' i'
  end.

(** The [height] handed to the editing surface, when there is one. *)
Definition element_height (e : Element) : option Z :=
  match e with
  | Div _ ed => Some (height ed)
  | Span _ _ => None
  end.

(** The [options] handed to the editing surface, when there is one. *)
Definition element_options (e : Element) : option JS.JsValue :=
  match e with
  | Div _ ed => Some (options ed)
  | Span _ _ => None
  end.

(** [o.k1.k2...] *)
Fixpoint option_at (path : list string) (o : JS.JsValue) : option JS.JsValue :=
  match path with
  | [] => Some o
  | k :: path' => o' ← JS.get k o; option_at path' o'
  end.

(** The number of configuration calls in a trace. *)
Fixpoint configure_count (t : list Event) : nat :=
  match t with
  | [] => O
  | Configured _ :: t' => S (configure_count t')
  | Mounted _ :: t' => configure_count t'
  end.

(** Blocks used as examples. *)
Definition tsx_block (text : string) : EditorProps :=
  {| children := NodeString text; className := Some "lang-tsx" |}.

Definition bash_block : EditorProps :=
  {| children := NodeString "echo hi"; className := Some "lang-bash" |}.

Definition a_b : string := String "a" (String JS.LF (String "b" EmptyString)).
Definition a_b_c : string := a_b +:+ String JS.LF (String "c" EmptyString).

(** A page with two editors, and the same page after an edit in the first. *)
Definition two_editors : Process :=
  {| evaluated := true;
     typescriptDefaults := Some compilerOptions;
     trace := [Configured compilerOptions; Mounted 0%nat; Mounted 1%nat];
     instances := <[1%nat := mount (tsx_block a_b)]>
                    (<[0%nat := mount (tsx_block "const a = 1;")]> ∅) |}.

Definition two_editors_edited : Process :=
  {| evaluated := true;
     typescriptDefaults := Some compilerOptions;
     trace := [Configured compilerOptions; Mounted 0%nat; Mounted 1%nat];
     instances := <[1%nat := mount (tsx_block a_b)]>
                    (<[0%nat := {| inst_props := tsx_block "const a = 1;";
                                   inst_code := NodeString "let b = 2;" |}]> ∅) |}.

(** What holds of every process the page can reach: before the module is
    evaluated nothing is configured and nothing is mounted; afterwards the
    trace starts with the one configuration call, and every instance was
    mounted after it. *)
Definition configured_first (p : Process) : Prop :=
  (evaluated p = false /\ trace p = [] /\ typescriptDefaults p = None
   /\ instances p = ∅)
  \/ (evaluated p = true /\ typescriptDefaults p = Some compilerOptions
      /\ exists ids : list nat,
           trace p = Configured compilerOptions :: map Mounted ids
           /\ forall id, is_Some (instances p !! id) -> id ∈ ids).

(** ** Further vocabulary *)

(** The text without its carriage returns and line feeds. *)
Fixpoint strip_breaks (s : string) : string :=
  match s with
  | EmptyString => EmptyString
  | String c s' =>
      if Ascii.eqb c JS.CR || Ascii.eqb c JS.LF then strip_breaks s'
      else String c (strip_breaks s')
  end.

(** The pieces of a split, put together again with nothing between them. *)
Fixpoint concat_pieces (pieces : list string) : string :=
  match pieces with
  | [] => EmptyString
  | piece :: pieces' => piece +:+ concat_pieces pieces'
  end.

Definition rest_of (s : string) : string :=
  match s with
  | EmptyString => EmptyString
  | String _ s' => s'
  end.

(** What can happen to one mounted component: its parent renders it again
    with some props, or the engine reports an edit. *)
Inductive InstAction : Type :=
| Rendered (props : EditorProps)
| Edited (newCode : string).

Fixpoint play (acts : list InstAction) (i : Instance) : option Instance :=
  match acts with
  | [] => Some i
  | Rendered props :: acts' => play acts' (rerender props i)
  | Edited newCode :: acts' => i' ← change newCode i; play acts' i'
  end.

(** The text of the last edit and the props of the last render in a run,
    with what holds when there was none. *)
Fixpoint last_edit (acts : list InstAction) (before : string) : string :=
  match acts with
  | [] => before
  | Rendered _ :: acts' => last_edit acts' before
  | Edited newCode :: acts' => last_edit acts' newCode
  end.

Fixpoint last_props (acts : list InstAction) (before : EditorProps) : EditorProps :=
  match acts with
  | [] => before
  | Rendered props :: acts' => last_props acts' props
  | Edited _ :: acts' => last_props acts' before
  end.

Definition is_render (a : InstAction) : bool :=
  match a with
  | Rendered _ => true
  | Edited _ => false
  end.

(** * Properties *)

(** ** Line splitting *)

Lemma app_String c s t : String c s +:+ t = String c (s +:+ t).
Proof. reflexivity. Qed.

Lemma app_empty_l t : EmptyString +:+ t = t.
Proof. reflexivity. Qed.

Lemma app_assoc_s s t u : (s +:+ t) +:+ u = s +:+ (t +:+ u).
Proof. induction s as [|c s IH]; [reflexivity|]. rewrite !app_String. by rewrite IH. Qed.

Lemma app_empty_r s : s +:+ EmptyString = s.
Proof. induction s as [|c s IH]; [reflexivity|]. rewrite app_String. by rewrite IH. Qed.

(** What the pattern matches at the front of a text. *)
Lemma exec_line_sep c s :
  JS.exec_at line_sep (String c s) =
    if Ascii.eqb c JS.CR then
      Some (if starts_with_lf s then 2%nat else 1%nat)
    else if Ascii.eqb c JS.LF then Some 1%nat
    else None.
Proof.
  cbn [JS.exec_at line_sep JS.match_lit].
  rewrite (Ascii.eqb_sym JS.CR c), (Ascii.eqb_sym JS.LF c).
  destruct (Ascii.eqb c JS.CR) eqn:Hcr.
  - destruct s as [|d s]; [reflexivity|].
    cbn [starts_with_lf]. rewrite (Ascii.eqb_sym JS.LF d).
    destruct (Ascii.eqb d JS.LF); reflexivity.
  - destruct s as [|d s]; cbn; destruct (Ascii.eqb c JS.LF); reflexivity.
Qed.

Example split_lf :
  JS.split (String "a" (String JS.LF (String "b" EmptyString))) line_sep = ["a"; "b"].
Proof. reflexivity. Qed.

Example split_crlf :
  JS.split (String "a" (String JS.CR (String JS.LF (String "b" EmptyString)))) line_sep
  = ["a"; "b"].
Proof. reflexivity. Qed.

Example split_empty : JS.split EmptyString line_sep = [EmptyString].
Proof. reflexivity. Qed.

Example split_cr_crlf_lf :
  JS.split (cr +:+ crlf +:+ lf) line_sep = [""; ""; ""; ""].
Proof. reflexivity. Qed.

Example split_between_code_units : JS.split "abc" (JS.Lit "") = ["a"; "b"; "c"].
Proof. reflexivity. Qed.

Example split_empty_by_empty : JS.split "" (JS.Lit "") = [].
Proof. reflexivity. Qed.

Lemma eqb_LF_not_CR c : Ascii.eqb c JS.LF = true -> Ascii.eqb c JS.CR = false.
Proof. intros H. apply Ascii.eqb_eq in H. by subst c. Qed.

Lemma line_breaks_after_no_lf s :
  starts_with_lf s = false ->
  line_breaks_after true s = line_breaks_after false s.
Proof.
  destruct s as [|c s]; [reflexivity|]. cbn [starts_with_lf line_breaks_after].
  intros ->. reflexivity.
Qed.

Lemma line_breaks_after_lf c s :
  Ascii.eqb c JS.LF = true ->
  line_breaks_after true (String c s) = line_breaks_after false s
  /\ line_breaks_after false (String c s) = S (line_breaks_after false s).
Proof.
  intros H. cbn [line_breaks_after]. rewrite H, (eqb_LF_not_CR _ H). done.
Qed.

(** The pieces of a text are one more than its line breaks. *)
Lemma split_from_length s :
  forall cur, length (JS.split_from line_sep s O cur) = S (line_breaks s).
Proof.
  unfold line_breaks.
  induction s as [|c s IH]; intros cur; [reflexivity|].
  cbn [JS.split_from]. rewrite exec_line_sep.
  cbn [line_breaks_after].
  destruct (Ascii.eqb c JS.CR) eqn:Hcr.
  - destruct (starts_with_lf s) eqn:Hlf.
    + destruct s as [|d s]; [discriminate|]. cbn [starts_with_lf] in Hlf.
      destruct (line_breaks_after_lf d s Hlf) as [-> Hd].
      specialize (IH EmptyString). cbn [JS.split_from] in IH.
      rewrite exec_line_sep, (eqb_LF_not_CR _ Hlf), Hlf in IH.
      cbn [length JS.split_from] in *. rewrite Hd in IH. lia.
    + rewrite (line_breaks_after_no_lf _ Hlf). cbn [length]. rewrite IH. lia.
  - destruct (Ascii.eqb c JS.LF) eqn:Hlf.
    + cbn [length]. rewrite IH. lia.
    + rewrite IH. lia.
Qed.

Lemma split_length s : length (JS.split s line_sep) = S (line_breaks s).
Proof.
  destruct s as [|c s]; [reflexivity|]. apply split_from_length.
Qed.

Lemma editor_height_line_breaks s :
  editor_height s = (Z.of_nat (line_breaks s) + 1) * lineHeightConstant + paddingConstant.
Proof.
  unfold editor_height, lineHeightConstant, paddingConstant.
  rewrite split_length. lia.
Qed.

(** Line breaks of a concatenation: the two counts add up, except that a
    carriage return ending the left part and a line feed starting the right
    part are one break together. *)
Lemma line_breaks_after_app b s t :
  line_breaks_after b (s +:+ t) =
    (line_breaks_after b s + line_breaks_after (ends_with_cr b s) t)%nat.
Proof.
  revert b. induction s as [|c s IH]; intros b; [reflexivity|].
  rewrite app_String. cbn [line_breaks_after ends_with_cr]. rewrite IH. lia.
Qed.

Lemma line_breaks_after_joined b t :
  line_breaks_after b t =
    (line_breaks_after false t - (if b && starts_with_lf t then 1 else 0))%nat.
Proof.
  destruct b; cbn [andb]; [|lia].
  destruct (starts_with_lf t) eqn:Hlf.
  - destruct t as [|d t]; [discriminate|]. cbn [starts_with_lf] in Hlf.
    destruct (line_breaks_after_lf d t Hlf) as [-> ->]. lia.
  - rewrite (line_breaks_after_no_lf _ Hlf). lia.
Qed.

Lemma line_breaks_app s t :
  line_breaks (s +:+ t) =
    (line_breaks s + line_breaks t
     - (if ends_with_cr false s && starts_with_lf t then 1 else 0))%nat.
Proof.
  unfold line_breaks. rewrite line_breaks_after_app.
  rewrite (line_breaks_after_joined (ends_with_cr false s) t).
  destruct (ends_with_cr false s && starts_with_lf t) eqn:E; [|lia].
  apply andb_true_iff in E as [_ E].
  destruct t as [|d t]; [discriminate|]. cbn [starts_with_lf] in E.
  destruct (line_breaks_after_lf d t E) as [_ ->]. lia.
Qed.

Lemma split_unfold s : JS.split s line_sep = JS.split_from line_sep s O EmptyString.
Proof. destruct s; reflexivity. Qed.

(** A stretch of text without line terminators is added to the piece being
    collected. *)
Lemma split_from_break_free l t :
  break_free l = true ->
  forall cur,
    JS.split_from line_sep (l +:+ t) O cur = JS.split_from line_sep t O (cur +:+ l).
Proof.
  induction l as [|c l IH]; intros Hl cur.
  - by rewrite app_empty_l, app_empty_r.
  - cbn [break_free] in Hl.
    apply andb_true_iff in Hl as [Hc Hl]. apply andb_true_iff in Hc as [Hcr Hlf].
    apply negb_true_iff in Hcr, Hlf.
    rewrite app_String. cbn [JS.split_from].
    rewrite exec_line_sep, Hcr, Hlf, (IH Hl), app_assoc_s. reflexivity.
Qed.

(** A line terminator closes the piece being collected. *)
Lemma split_from_sep sep t cur :
  is_line_break sep ->
  (sep = cr -> starts_with_lf t = false) ->
  JS.split_from line_sep (sep +:+ t) O cur = cur :: JS.split_from line_sep t O EmptyString.
Proof.
  intros [-> | [-> | ->]] Ht.
  - reflexivity.
  - unfold cr. rewrite app_String, app_empty_l. cbn [JS.split_from].
    rewrite exec_line_sep, (Ht eq_refl). reflexivity.
  - reflexivity.
Qed.

Lemma starts_with_lf_break_free l t :
  break_free l = true ->
  starts_with_lf (l +:+ t) = match l with EmptyString => starts_with_lf t | _ => false end.
Proof.
  destruct l as [|c l]; [reflexivity|]. cbn [break_free]. intros H.
  apply andb_true_iff in H as [H _]. apply andb_true_iff in H as [_ H].
  apply negb_true_iff in H. exact H.
Qed.

Lemma starts_with_lf_join_cr lines :
  forallb break_free lines = true -> starts_with_lf (join cr lines) = false.
Proof.
  destruct lines as [|l rest]; [reflexivity|]. cbn [forallb]. intros H.
  apply andb_true_iff in H as [Hl _].
  destruct rest as [|l2 rest]; cbn [join].
  - rewrite <- (app_empty_r l), (starts_with_lf_break_free _ _ Hl). by destruct l.
  - rewrite (starts_with_lf_break_free _ _ Hl). by destruct l.
Qed.

Lemma split_from_join sep lines :
  is_line_break sep ->
  forallb break_free lines = true ->
  forall l cur,
    break_free l = true ->
    JS.split_from line_sep (join sep (l :: lines)) O cur = (cur +:+ l) :: lines.
Proof.
  intros Hsep. induction lines as [|l2 rest IH]; intros Hall l cur Hl.
  - cbn [join]. rewrite <- (app_empty_r l) at 1.
    rewrite (split_from_break_free _ _ Hl). reflexivity.
  - cbn [forallb] in Hall. apply andb_true_iff in Hall as [Hl2 Hrest].
    change (join sep (l :: l2 :: rest)) with (l +:+ sep +:+ join sep (l2 :: rest)).
    rewrite (split_from_break_free _ _ Hl), (split_from_sep _ _ _ Hsep).
    + rewrite (IH Hrest l2 EmptyString Hl2). reflexivity.
    + intros ->. apply starts_with_lf_join_cr. cbn [forallb]. by rewrite Hl2, Hrest.
Qed.

(** Splitting undoes joining, whichever terminator joined the lines. *)
Lemma split_join sep lines :
  is_line_break sep ->
  forallb break_free lines = true ->
  lines <> [] ->
  JS.split (join sep lines) line_sep = lines.
Proof.
  intros Hsep Hall Hne. destruct lines as [|l rest]; [done|].
  cbn [forallb] in Hall. apply andb_true_iff in Hall as [Hl Hrest].
  rewrite split_unfold. by rewrite (split_from_join _ _ Hsep Hrest l EmptyString Hl).
Qed.

(** ** Classification *)

Lemma narrow_string_typeof v :
  is_Some (narrow_string v) <-> typeof v = JS.TString.
Proof.
  destruct v; cbn; split; intros H; try done; try (by destruct H); by eexists.
Qed.

Lemma render_mount props : render (mount props) = (Editor props None).2.
Proof.
  unfold render, mount, Editor. cbn [inst_props inst_code fst snd useState]. reflexivity.
Qed.

Lemma Editor_live props cell src :
  className props = Some "lang-tsx" ->
  useState (children props) cell = NodeString src ->
  (Editor props cell).2 = live_element src.
Proof.
  intros Hcls Hcode. unfold Editor. cbn [snd].
  rewrite bool_decide_eq_true_2 by exact Hcls. by rewrite Hcode.
Qed.

Lemma Editor_static_tag props cell :
  className props <> Some "lang-tsx" ->
  (Editor props cell).2 = static_element (children props).
Proof.
  intros Hcls. unfold Editor. cbn [snd].
  by rewrite bool_decide_eq_false_2 by exact Hcls.
Qed.

Lemma Editor_static_code props cell :
  narrow_string (useState (children props) cell) = None ->
  (Editor props cell).2 = static_element (children props).
Proof.
  intros Hcode. unfold Editor. cbn [snd]. rewrite Hcode. by case_bool_decide.
Qed.

(** C1, as stated, fails: a block tagged ["lang-tsx"] whose text is the empty
    string takes the editor branch, it is not classified Static. *)
Lemma classify_empty_text_not_static :
  classify (tsx_block "") = Live /\ classify (tsx_block "") <> Static.
Proof. split; [reflexivity | discriminate]. Qed.

(** C1, amended: a block is classified Live exactly when its tag is
    ["lang-tsx"] and its text is a string, of any length, the empty string
    included; every other tag and every payload that is no string (number,
    boolean, null, undefined, element) is classified Static. *)
Theorem classify_rule (props : EditorProps) :
  (classify props = Live <->
     className props = Some "lang-tsx" /\ typeof (children props) = JS.TString)
  /\ (classify props = Static <->
        ~ (className props = Some "lang-tsx" /\ typeof (children props) = JS.TString))
  /\ (forall text, classify (tsx_block text) = Live).
Proof.
  assert (Hlive : className props = Some "lang-tsx" /\ typeof (children props) = JS.TString
                  -> classify props = Live).
  { intros [Hcls Hty]. apply narrow_string_typeof in Hty as [src Hsrc].
    unfold classify. rewrite render_mount.
    rewrite (Editor_live props None src Hcls); [reflexivity|].
    cbn [useState]. revert Hsrc. destruct (children props); cbn; congruence. }
  assert (Hstatic : ~ (className props = Some "lang-tsx" /\ typeof (children props) = JS.TString)
                    -> classify props = Static).
  { intros Hn. unfold classify. rewrite render_mount.
    destruct (decide (className props = Some "lang-tsx")) as [Hcls|Hcls].
    - rewrite Editor_static_code; [reflexivity|]. cbn [useState].
      destruct (narrow_string (children props)) as [src|] eqn:Hsrc; [|reflexivity].
      exfalso. apply Hn. split; [exact Hcls|]. apply narrow_string_typeof. by eexists.
    - by rewrite Editor_static_tag. }
  split; [|split].
  - split; [|exact Hlive]. intros Hc.
    destruct (decide (className props = Some "lang-tsx")) as [Hcls|Hcls];
      destruct (typeof (children props)) eqn:Hty; try (split; done);
      exfalso; (assert (classify props = Static) as Hs by (apply Hstatic; intros [? ?]; congruence));
      congruence.
  - split; [|exact Hstatic]. intros Hc Hl. apply Hlive in Hl. congruence.
  - intros text. reflexivity.
Qed.

(** ** Sizing *)

Lemma buffer_live i src :
  buffer i = Some src -> render i = live_element src.
Proof.
  unfold buffer, render, Editor. cbn [snd useState].
  case_bool_decide; [|discriminate].
  destruct (narrow_string (inst_code i)) as [s|]; [|discriminate].
  cbn. by intros [= ->].
Qed.

(** C2: the height of a live editor is (line breaks of the current buffer
    + 1) * lineHeightConstant + paddingConstant, with 19 and 1 for the two
    constants. *)
Theorem height_formula (i : Instance) (src : string) :
  buffer i = Some src ->
  element_height (render i)
  = Some ((Z.of_nat (line_breaks src) + 1) * lineHeightConstant + paddingConstant).
Proof.
  intros Hbuf. rewrite (buffer_live _ _ Hbuf).
  cbn [element_height live_element height].
  by rewrite editor_height_line_breaks.
Qed.

(** Scenario 1: the block ["const a = 1;"] tagged ["lang-tsx"] is Live, its
    initial buffer is the text and its initial height is
    1 * lineHeightConstant + paddingConstant. *)
Lemma height_formula_witness :
  buffer (mount (tsx_block "const a = 1;")) = Some "const a = 1;"
  /\ element_height (render (mount (tsx_block "const a = 1;")))
     = Some (1 * lineHeightConstant + paddingConstant).
Proof.
  split; [reflexivity|].
  exact (height_formula (mount (tsx_block "const a = 1;")) "const a = 1;" eq_refl).
Defined.

Lemma buffer_live_cell i src :
  buffer i = Some src ->
  className (inst_props i) = Some "lang-tsx" /\ narrow_string (inst_code i) = Some src.
Proof.
  unfold buffer, render, Editor. cbn [snd useState].
  case_bool_decide as Hcls; [|discriminate].
  destruct (narrow_string (inst_code i)) as [s|]; [|discriminate].
  cbn. by intros [= ->].
Qed.

(** C3: a change of the buffer that brings one more line break raises the
    height by exactly one lineHeightConstant.  For a live editor: the edit is
    taken, and the height goes from (n + 1) * lineHeightConstant +
    paddingConstant to (n + 2) * lineHeightConstant + paddingConstant, n
    being the line breaks before; the padding term is the same in both. *)
Theorem height_one_more_line :
  (forall s s' : string,
     line_breaks s' = S (line_breaks s) ->
     editor_height s' = editor_height s + lineHeightConstant)
  /\ (forall (i : Instance) (src src' : string),
        buffer i = Some src ->
        line_breaks src' = S (line_breaks src) ->
        exists i',
          change src' i = Some i'
          /\ buffer i' = Some src'
          /\ element_height (render i)
             = Some ((Z.of_nat (line_breaks src) + 1) * lineHeightConstant
                     + paddingConstant)
          /\ element_height (render i')
             = Some ((Z.of_nat (line_breaks src) + 2) * lineHeightConstant
                     + paddingConstant)).
Proof.
  split.
  - intros s s' Hs. rewrite !editor_height_line_breaks, Hs.
    unfold lineHeightConstant, paddingConstant. lia.
  - intros i src src' Hbuf Hs.
    destruct (buffer_live_cell i src Hbuf) as [Hcls Hcell].
    pose proof (buffer_live i src Hbuf) as Hrender.
    assert (Hnew : (Editor (inst_props i) (Some (NodeString src'))).2 = live_element src')
      by (by apply Editor_live).
    exists {| inst_props := inst_props i; inst_code := NodeString src' |}.
    split; [|split; [|split]].
    + unfold change. by rewrite Hrender.
    + unfold buffer, render. cbn [inst_props inst_code]. by rewrite Hnew.
    + rewrite Hrender. cbn [element_height live_element height].
      by rewrite editor_height_line_breaks.
    + unfold render. cbn [inst_props inst_code]. rewrite Hnew.
      cbn [element_height live_element height].
      rewrite editor_height_line_breaks, Hs. f_equal. lia.
Qed.

(** Scenario 3: "a\nb" has height 2 * lineHeightConstant + paddingConstant,
    and with "\nc" appended 3 * lineHeightConstant + paddingConstant. *)
Lemma height_one_more_line_witness :
  buffer (mount (tsx_block a_b)) = Some a_b
  /\ line_breaks a_b_c = S (line_breaks a_b)
  /\ editor_height a_b = 2 * lineHeightConstant + paddingConstant
  /\ editor_height a_b_c = 2 * lineHeightConstant + paddingConstant + lineHeightConstant
  /\ exists i',
       change a_b_c (mount (tsx_block a_b)) = Some i'
       /\ buffer i' = Some a_b_c
       /\ element_height (render (mount (tsx_block a_b)))
          = Some (2 * lineHeightConstant + paddingConstant)
       /\ element_height (render i') = Some (3 * lineHeightConstant + paddingConstant).
Proof.
  do 3 (split; [reflexivity|]). split.
  - exact (proj1 height_one_more_line a_b a_b_c eq_refl).
  - exact (proj2 height_one_more_line (mount (tsx_block a_b)) a_b a_b_c eq_refl eq_refl).
Defined.

(** C10: lines joined by "\r\n", by "\r" or by "\n" get the same height, one
    lineHeightConstant per line plus the padding: a "\r\n" between two lines
    is one break.  With no line at all the buffer is empty and the height is
    that of one line. *)
Theorem height_any_line_ending (sep : string) (lines : list string) :
  is_line_break sep ->
  forallb break_free lines = true ->
  editor_height (join sep lines)
  = Z.of_nat (Nat.max 1 (length lines)) * lineHeightConstant + paddingConstant.
Proof.
  intros Hsep Hall. destruct lines as [|l rest].
  - reflexivity.
  - unfold editor_height. rewrite (split_join sep (l :: rest) Hsep Hall) by done.
    unfold lineHeightConstant, paddingConstant. cbn [length]. lia.
Qed.

Lemma height_any_line_ending_witness :
  (is_line_break crlf /\ is_line_break cr /\ is_line_break lf)
  /\ forallb break_free ["a"; ""; "b"] = true
  /\ editor_height (join crlf ["a"; ""; "b"]) = 3 * lineHeightConstant + paddingConstant
  /\ editor_height (join cr ["a"; ""; "b"]) = 3 * lineHeightConstant + paddingConstant
  /\ editor_height (join lf ["a"; ""; "b"]) = 3 * lineHeightConstant + paddingConstant
  /\ editor_height (join crlf []) = 1 * lineHeightConstant + paddingConstant.
Proof.
  assert (H1 : is_line_break crlf) by (left; reflexivity).
  assert (H2 : is_line_break cr) by (right; left; reflexivity).
  assert (H3 : is_line_break lf) by (right; right; reflexivity).
  split; [by repeat split|]. split; [reflexivity|]. repeat apply conj.
  - exact (height_any_line_ending crlf ["a"; ""; "b"] H1 eq_refl).
  - exact (height_any_line_ending cr ["a"; ""; "b"] H2 eq_refl).
  - exact (height_any_line_ending lf ["a"; ""; "b"] H3 eq_refl).
  - exact (height_any_line_ending crlf [] H1 eq_refl).
Defined.

(** ** Editable state *)

Lemma buffer_of_string_cell props src :
  className props = Some "lang-tsx" ->
  buffer {| inst_props := props; inst_code := NodeString src |} = Some src.
Proof.
  intros Hcls. unfold buffer, render. cbn [inst_props inst_code].
  by rewrite (Editor_live props (Some (NodeString src)) src Hcls).
Qed.

Lemma change_live props src newCode :
  className props = Some "lang-tsx" ->
  change newCode {| inst_props := props; inst_code := NodeString src |}
  = Some {| inst_props := props; inst_code := NodeString newCode |}.
Proof.
  intros Hcls. unfold change, render. cbn [inst_props inst_code].
  by rewrite (Editor_live props (Some (NodeString src)) src Hcls).
Qed.

(** After a run of edits the cell holds the last text typed, or the text it
    held before when nothing was typed. *)
Lemma changes_live props edits :
  className props = Some "lang-tsx" ->
  forall src,
    changes edits {| inst_props := props; inst_code := NodeString src |}
    = Some {| inst_props := props; inst_code := NodeString (List.last edits src) |}.
Proof.
  intros Hcls. induction edits as [|e edits IH]; intros src; [reflexivity|].
  cbn [changes]. rewrite (change_live props src e Hcls). cbn [mbind option_bind].
  rewrite (IH e). f_equal. f_equal. f_equal.
  destruct edits as [|e2 edits]; [reflexivity|]. cbn [List.last].
  clear. revert e2. induction edits as [|e3 edits IH]; intros e2; [reflexivity|].
  cbn [List.last]. apply IH.
Qed.

(** C4: right after mount the cell of a live editor is the text of its
    block; after any run of edits the cell, and the buffer on display, is the
    text of the last edit, also when the parent renders the block again with
    another text. *)
Theorem seeded_then_controlled (text : string) (edits : list string) (text' : string) :
  inst_code (mount (tsx_block text)) = NodeString text
  /\ buffer (mount (tsx_block text)) = Some text
  /\ exists i,
       changes edits (mount (tsx_block text)) = Some i
       /\ inst_code i = NodeString (List.last edits text)
       /\ buffer i = Some (List.last edits text)
       /\ buffer (rerender (tsx_block text') i) = Some (List.last edits text).
Proof.
  assert (Hm : mount (tsx_block text)
               = {| inst_props := tsx_block text; inst_code := NodeString text |})
    by reflexivity.
  split; [reflexivity|]. split; [reflexivity|].
  eexists. rewrite Hm. split.
  - by apply changes_live.
  - cbn [inst_code]. split; [reflexivity|]. split.
    + by apply buffer_of_string_cell.
    + unfold rerender. cbn [inst_code Editor fst useState].
      by apply buffer_of_string_cell.
Qed.

(** ** Editor options *)

(** C5, as stated, fails: the options of a live editor say nothing about the
    horizontal scrollbar; it is not set to hidden. *)
Lemma horizontal_scrollbar_not_configured :
  (element_options (render (mount (tsx_block "const a = 1;")))
     ≫= option_at ["scrollbar"; "horizontal"]) = None
  /\ (element_options (render (mount (tsx_block "const a = 1;")))
        ≫= option_at ["scrollbar"; "horizontal"]) <> Some (JS.JStr "hidden").
Proof. split; [reflexivity | discriminate]. Qed.

(** C5, amended: every live editor, whatever its props and its buffer, gets
    the same options: the vertical scrollbar hidden, without arrows and of
    size 0, no scrolling beyond the last line, the minimap and code folding
    off, the ["vs-dark"] theme.  The horizontal scrollbar is left as the
    engine has it. *)
Theorem chrome_options (i : Instance) (src : string) :
  buffer i = Some src ->
  exists o,
    element_options (render i) = Some o
    /\ o = editor_options
    /\ option_at ["scrollbar"; "vertical"] o = Some (JS.JStr "hidden")
    /\ option_at ["scrollbar"; "verticalHasArrows"] o = Some (JS.JBool false)
    /\ option_at ["scrollbar"; "verticalScrollbarSize"] o = Some (JS.JNum 0)
    /\ option_at ["scrollbar"; "verticalSliderSize"] o = Some (JS.JNum 0)
    /\ option_at ["scrollbar"; "horizontal"] o = None
    /\ option_at ["scrollBeyondLastLine"] o = Some (JS.JBool false)
    /\ option_at ["minimap"; "enabled"] o = Some (JS.JBool false)
    /\ option_at ["folding"] o = Some (JS.JBool false)
    /\ option_at ["theme"] o = Some (JS.JStr "vs-dark").
Proof.
  intros Hbuf. rewrite (buffer_live _ _ Hbuf).
  exists editor_options. cbn [element_options live_element options].
  repeat split.
Qed.

Lemma chrome_options_witness :
  buffer (mount (tsx_block a_b)) = Some a_b
  /\ exists o,
       element_options (render (mount (tsx_block a_b))) = Some o
       /\ o = editor_options
       /\ option_at ["scrollbar"; "vertical"] o = Some (JS.JStr "hidden")
       /\ option_at ["scrollbar"; "verticalHasArrows"] o = Some (JS.JBool false)
       /\ option_at ["scrollbar"; "verticalScrollbarSize"] o = Some (JS.JNum 0)
       /\ option_at ["scrollbar"; "verticalSliderSize"] o = Some (JS.JNum 0)
       /\ option_at ["scrollbar"; "horizontal"] o = None
       /\ option_at ["scrollBeyondLastLine"] o = Some (JS.JBool false)
       /\ option_at ["minimap"; "enabled"] o = Some (JS.JBool false)
       /\ option_at ["folding"] o = Some (JS.JBool false)
       /\ option_at ["theme"] o = Some (JS.JStr "vs-dark").
Proof.
  split; [reflexivity|].
  exact (chrome_options (mount (tsx_block a_b)) a_b eq_refl).
Defined.

(** ** Static rendering *)

(** C6: a text whose block is not tagged ["lang-tsx"] is rendered, whatever
    the text and whatever cell the component holds, as a [<span>] with
    [white-space: pre] around the unchanged text; the element has no editing
    surface and no handler, attaching it cannot fail, and two renders give
    the same element. *)
Theorem static_render (text : string) (tag : option string) (cell cell' : option ReactNode)
    (attached : bool) :
  tag <> Some "lang-tsx" ->
  (Editor {| children := NodeString text; className := tag |} cell).2
    = Span span_style (NodeString text)
  /\ JS.get "whiteSpace" span_style = Some (JS.JStr "pre")
  /\ (Editor {| children := NodeString text; className := tag |} cell').2
     = (Editor {| children := NodeString text; className := tag |} cell).2
  /\ commit attached (Editor {| children := NodeString text; className := tag |} cell).2
     = Shown (Span span_style (NodeString text))
  /\ element_height (Editor {| children := NodeString text; className := tag |} cell).2 = None
  /\ forall code newCode,
       change newCode {| inst_props := {| children := NodeString text; className := tag |};
                         inst_code := code |} = None.
Proof.
  intros Htag.
  assert (Hs : forall c, (Editor {| children := NodeString text; className := tag |} c).2
                         = Span span_style (NodeString text)).
  { intros c. by rewrite Editor_static_tag. }
  rewrite !Hs. repeat split.
  intros code newCode. unfold change, render. cbn [inst_props inst_code].
  by rewrite Hs.
Qed.

(** Scenario 2: ["echo hi"] tagged ["lang-bash"]; and the empty text. *)
Lemma static_render_witness :
  Some "lang-bash" <> Some "lang-tsx"
  /\ classify bash_block = Static
  /\ render (mount bash_block) = Span span_style (NodeString "echo hi")
  /\ (Editor {| children := NodeString ""; className := Some "lang-bash" |} None).2
     = Span span_style (NodeString "").
Proof.
  assert (Hne : Some "lang-bash" <> Some "lang-tsx") by discriminate.
  split; [exact Hne|]. split; [reflexivity|]. split.
  - exact (proj1 (static_render "echo hi" (Some "lang-bash") None None true Hne)).
  - exact (proj1 (static_render "" (Some "lang-bash") None None true Hne)).
Defined.

(** ** The process *)

Lemma configured_first_start : configured_first start.
Proof. left. done. Qed.

Lemma configured_first_step a p p' :
  configured_first p -> step a p = Some p' -> configured_first p'.
Proof.
  intros [(Hev & Htr & Hopt & Hinst) | (Hev & Hopt & ids & Htr & Hids)] Hstep.
  - (* the module has not been evaluated: only [Import] can run *)
    destruct a as [|id props|id props|id newCode|id]; cbn in Hstep.
    + injection Hstep as <-. unfold import_module. rewrite Hev.
      right. cbn. rewrite Htr, Hinst. split; [done|]. split; [done|].
      exists []. split; [done|]. intros id [i Hi]. by rewrite lookup_empty in Hi.
    + by rewrite Hev in Hstep.
    + by rewrite Hinst, lookup_empty in Hstep.
    + by rewrite Hinst, lookup_empty in Hstep.
    + by rewrite Hinst, lookup_empty in Hstep.
  - destruct a as [|id props|id props|id newCode|id]; cbn in Hstep.
    + injection Hstep as <-. unfold import_module. rewrite Hev.
      right. eauto 10.
    + rewrite Hev in Hstep.
      destruct (instances p !! id) eqn:Hid; [done|]. injection Hstep as <-.
      right. cbn. split; [done|]. split; [done|].
      exists (ids ++ [id]). rewrite Htr, map_app. split; [done|].
      intros j [i Hj]. apply elem_of_app.
      destruct (decide (id = j)) as [->|Hne]; [right; by apply list_elem_of_singleton|].
      left. apply Hids. rewrite lookup_insert_ne in Hj by done. by eexists.
    + destruct (instances p !! id) as [i|] eqn:Hid; [|done]. cbn in Hstep.
      injection Hstep as <-. right. cbn. split; [done|]. split; [done|].
      exists ids. rewrite app_nil_r. split; [done|].
      intros j [i' Hj]. destruct (decide (id = j)) as [->|Hne]; [apply Hids; by eexists|].
      apply Hids. rewrite lookup_insert_ne in Hj by done. by eexists.
    + destruct (instances p !! id) as [i|] eqn:Hid; [|done]. cbn in Hstep.
      destruct (change newCode i) as [i2|]; [|done]. cbn in Hstep.
      injection Hstep as <-. right. cbn. split; [done|]. split; [done|].
      exists ids. rewrite app_nil_r. split; [done|].
      intros j [i' Hj]. destruct (decide (id = j)) as [->|Hne]; [apply Hids; by eexists|].
      apply Hids. rewrite lookup_insert_ne in Hj by done. by eexists.
    + destruct (instances p !! id) as [i|] eqn:Hid; [|done]. cbn in Hstep.
      injection Hstep as <-. right. cbn. split; [done|]. split; [done|].
      exists ids. rewrite app_nil_r. split; [done|].
      intros j [i' Hj]. apply Hids.
      destruct (decide (id = j)) as [->|Hne]; [by rewrite lookup_delete_eq in Hj|].
      rewrite lookup_delete_ne in Hj by done. by eexists.
Qed.

Lemma configured_first_run acts :
  forall p p', configured_first p -> run acts p = Some p' -> configured_first p'.
Proof.
  induction acts as [|a acts IH]; intros p p' Hp Hrun; cbn in Hrun.
  - by injection Hrun as <-.
  - destruct (step a p) as [p1|] eqn:Hstep; [|done]. cbn in Hrun.
    exact (IH p1 p' (configured_first_step a p p1 Hp Hstep) Hrun).
Qed.

Lemma configure_count_mounts ids : configure_count (map Mounted ids) = O.
Proof. induction ids as [|id ids IH]; [reflexivity | exact IH]. Qed.

(** C7: in every process the page can reach, the engine was configured as
    many times as the module was evaluated, that is at most once; no instance
    exists, and no mount is in the trace, unless the trace starts with that
    call; and the call passes target ESNext, module CommonJS, Node module
    resolution, React JSX, noEmit and strict. *)
Theorem configured_once_before_mounts (acts : list Action) (p : Process) :
  run acts start = Some p ->
  configure_count (trace p) = (if evaluated p then 1 else 0)%nat
  /\ (forall id, is_Some (instances p !! id) ->
        exists ids, trace p = Configured compilerOptions :: map Mounted ids /\ id ∈ ids)
  /\ (forall pre id post, trace p = pre ++ Mounted id :: post ->
        exists pre', pre = Configured compilerOptions :: pre'
                     /\ typescriptDefaults p = Some compilerOptions)
  /\ Monaco.target compilerOptions = Some Monaco.ESNext
  /\ Monaco.module compilerOptions = Some Monaco.CommonJS
  /\ Monaco.moduleResolution compilerOptions = Some Monaco.NodeJs
  /\ Monaco.jsx compilerOptions = Some Monaco.React
  /\ Monaco.noEmit compilerOptions = Some true
  /\ Monaco.strict compilerOptions = Some true.
Proof.
  intros Hrun.
  pose proof (configured_first_run acts start p configured_first_start Hrun) as Hp.
  split; [|split; [|split; [|by repeat split]]].
  - destruct Hp as [(-> & -> & _) | (-> & _ & ids & -> & _)]; [reflexivity|].
    cbn [configure_count]. by rewrite configure_count_mounts.
  - intros id Hid.
    destruct Hp as [(_ & _ & _ & Hinst) | (_ & _ & ids & Htr & Hids)].
    + rewrite Hinst, lookup_empty in Hid. by destruct Hid.
    + exists ids. split; [exact Htr | by apply Hids].
  - intros pre id post Htr.
    destruct Hp as [(_ & Hnil & _) | (_ & Hopt & ids & Hids & _)].
    + rewrite Hnil in Htr. by destruct pre.
    + rewrite Hids in Htr. destruct pre as [|e pre]; [discriminate|].
      injection Htr as <- _. by exists pre.
Qed.

Lemma configured_once_before_mounts_witness :
  run [Import; Mount 0 (tsx_block "const a = 1;"); Import; Mount 1 (tsx_block a_b)] start
    = Some two_editors
  /\ configure_count (trace two_editors) = 1%nat
  /\ trace two_editors = [Configured compilerOptions; Mounted 0%nat; Mounted 1%nat].
Proof.
  assert (Hrun : run [Import; Mount 0 (tsx_block "const a = 1;"); Import;
                      Mount 1 (tsx_block a_b)] start = Some two_editors)
    by reflexivity.
  split; [exact Hrun|]. split; [|reflexivity].
  exact (proj1 (configured_once_before_mounts _ _ Hrun)).
Defined.

(** ** Isolation of instances *)

Lemma step_frame a p p' j :
  step a p = Some p' -> target a <> Some j -> instances p' !! j = instances p !! j.
Proof.
  intros Hstep Hj.
  destruct a as [|id props|id props|id newCode|id]; cbn in Hstep, Hj.
  - injection Hstep as <-. unfold import_module. by destruct (evaluated p).
  - destruct (evaluated p); [|done].
    destruct (instances p !! id); [done|]. injection Hstep as <-. cbn.
    apply lookup_insert_ne. congruence.
  - destruct (instances p !! id) as [i|]; [|done]. injection Hstep as <-. cbn.
    apply lookup_insert_ne. congruence.
  - destruct (instances p !! id) as [i|]; [|done]. cbn in Hstep.
    destruct (change newCode i); [|done]. injection Hstep as <-. cbn.
    apply lookup_insert_ne. congruence.
  - destruct (instances p !! id) as [i|]; [|done]. injection Hstep as <-. cbn.
    apply lookup_delete_ne. congruence.
Qed.

(** C8: whatever happens to other instances (edits, renders, mounts,
    unmounts), an instance keeps its cell, and so the buffer it shows. *)
Theorem instances_isolated (acts : list Action) (p p' : Process) (j : nat) :
  Forall (fun a => target a <> Some j) acts ->
  run acts p = Some p' ->
  instances p' !! j = instances p !! j
  /\ (instances p' !! j ≫= buffer) = (instances p !! j ≫= buffer).
Proof.
  intros Hacts Hrun.
  assert (H : instances p' !! j = instances p !! j); [|by rewrite H].
  revert p Hrun. induction Hacts as [|a acts Ha _ IH]; intros p Hrun; cbn in Hrun.
  - by injection Hrun as <-.
  - destruct (step a p) as [p1|] eqn:Hstep; [|done]. cbn in Hrun.
    rewrite (IH p1 Hrun). exact (step_frame a p p1 j Hstep Ha).
Qed.

Lemma instances_isolated_witness :
  Forall (fun a => target a <> Some 1%nat) [Change 0 "let b"; Change 0 "let b = 2;"]
  /\ run [Change 0 "let b"; Change 0 "let b = 2;"] two_editors = Some two_editors_edited
  /\ (instances two_editors !! 0%nat ≫= buffer) = Some "const a = 1;"
  /\ (instances two_editors_edited !! 0%nat ≫= buffer) = Some "let b = 2;"
  /\ (instances two_editors_edited !! 1%nat ≫= buffer)
     = (instances two_editors !! 1%nat ≫= buffer).
Proof.
  assert (Hacts : Forall (fun a => target a <> Some 1%nat)
                    [Change 0 "let b"; Change 0 "let b = 2;"])
    by (repeat constructor; discriminate).
  assert (Hrun : run [Change 0 "let b"; Change 0 "let b = 2;"] two_editors
                 = Some two_editors_edited) by reflexivity.
  split; [exact Hacts|]. split; [exact Hrun|].
  split; [reflexivity|]. split; [reflexivity|].
  exact (proj2 (instances_isolated _ _ _ 1%nat Hacts Hrun)).
Defined.

(** ** Failure to attach *)

(** C9, as stated, fails: when the editing surface of a live block cannot be
    attached, the block is not shown as static text; the failure leaves the
    component. *)
Lemma mount_error_not_recovered :
  commit false (render (mount (tsx_block "const a = 1;"))) = Thrown
  /\ commit false (render (mount (tsx_block "const a = 1;")))
     <> Shown (static_element (NodeString "const a = 1;")).
Proof. split; [reflexivity | discriminate]. Qed.

(** C9, amended: the element of a block is decided by its tag and its cell
    alone.  A live block is shown as its editor when the surface attaches and
    is not shown by the component when it does not: nothing is put in its
    place.  Static text is what a block gets that is not live, and that
    element always attaches. *)
Theorem mount_error_unhandled (i : Instance) (attached : bool) :
  (forall src, buffer i = Some src ->
     commit attached (render i) = if attached then Shown (live_element src) else Thrown)
  /\ (buffer i = None ->
      commit attached (render i) = Shown (static_element (children (inst_props i)))).
Proof.
  split.
  - intros src Hbuf. rewrite (buffer_live _ _ Hbuf). reflexivity.
  - unfold buffer, render, Editor. cbn [snd useState].
    case_bool_decide; [|reflexivity].
    destruct (narrow_string (inst_code i)); [discriminate | reflexivity].
Qed.

Lemma mount_error_unhandled_witness :
  buffer (mount (tsx_block a_b)) = Some a_b
  /\ commit false (render (mount (tsx_block a_b))) = Thrown
  /\ commit true (render (mount (tsx_block a_b))) = Shown (live_element a_b)
  /\ buffer (mount bash_block) = None
  /\ commit false (render (mount bash_block)) = Shown (static_element (NodeString "echo hi")).
Proof.
  split; [reflexivity|]. split; [|split; [|split; [reflexivity|]]].
  - exact (proj1 (mount_error_unhandled (mount (tsx_block a_b)) false) a_b eq_refl).
  - exact (proj1 (mount_error_unhandled (mount (tsx_block a_b)) true) a_b eq_refl).
  - exact (proj2 (mount_error_unhandled (mount bash_block) false) eq_refl).
Defined.

(** * Further properties of the line splitting and of the sizing *)

(** Induction on a text that may look one code unit further. *)
Lemma string_ind_two (P : string -> Prop) :
  P EmptyString ->
  (forall c s, P s -> P (rest_of s) -> P (String c s)) ->
  forall s, P s.
Proof.
  intros Hnil Hcons s.
  assert (H : P s /\ P (rest_of s)); [|exact (proj1 H)].
  induction s as [|c s [IH1 IH2]]; [by split|].
  split; [by apply Hcons | exact IH1].
Qed.

(** One turn of the loop on the line pattern. *)
Lemma split_from_line_sep c s cur :
  JS.split_from line_sep (String c s) O cur =
    if Ascii.eqb c JS.CR then
      cur :: JS.split_from line_sep (if starts_with_lf s then rest_of s else s) O EmptyString
    else if Ascii.eqb c JS.LF then cur :: JS.split_from line_sep s O EmptyString
    else JS.split_from line_sep s O (cur +:+ String c EmptyString).
Proof.
  cbn [JS.split_from]. rewrite exec_line_sep.
  destruct (Ascii.eqb c JS.CR); [|by destruct (Ascii.eqb c JS.LF)].
  destruct (starts_with_lf s) eqn:Hlf; [|reflexivity].
  destruct s as [|d s]; [discriminate | reflexivity].
Qed.

Lemma break_free_app s t :
  break_free (s +:+ t) = break_free s && break_free t.
Proof.
  induction s as [|c s IH]; [reflexivity|].
  rewrite app_String. cbn [break_free]. rewrite IH. by rewrite andb_assoc.
Qed.

Lemma split_from_break_free_pieces s :
  forall cur, break_free cur = true ->
    forallb break_free (JS.split_from line_sep s O cur) = true.
Proof.
  induction s as [|c s IH1 IH2] using string_ind_two; intros cur Hcur.
  - cbn. by rewrite Hcur.
  - rewrite split_from_line_sep.
    destruct (Ascii.eqb c JS.CR) eqn:Hcr; [|destruct (Ascii.eqb c JS.LF) eqn:Hlf].
    + cbn [forallb]. rewrite Hcur. cbn [andb].
      destruct (starts_with_lf s); [by apply IH2 | by apply IH1].
    + cbn [forallb]. rewrite Hcur. by apply IH1.
    + apply IH1. rewrite break_free_app, Hcur. cbn. by rewrite Hcr, Hlf.
Qed.

(** X2: no piece of a split holds a carriage return or a line feed. *)
Theorem split_pieces_break_free (s : string) :
  forallb break_free (JS.split s line_sep) = true.
Proof.
  rewrite split_unfold. by apply split_from_break_free_pieces.
Qed.

Lemma strip_breaks_lf s :
  starts_with_lf s = true -> strip_breaks s = strip_breaks (rest_of s).
Proof.
  destruct s as [|d s]; [discriminate|]. cbn [starts_with_lf strip_breaks rest_of].
  intros ->. by rewrite orb_true_r.
Qed.

Lemma split_from_concat s :
  forall cur, concat_pieces (JS.split_from line_sep s O cur) = cur +:+ strip_breaks s.
Proof.
  induction s as [|c s IH1 IH2] using string_ind_two; intros cur.
  - cbn. by rewrite app_empty_r.
  - rewrite split_from_line_sep. cbn [strip_breaks].
    destruct (Ascii.eqb c JS.CR) eqn:Hcr; [|destruct (Ascii.eqb c JS.LF) eqn:Hlf];
      cbn [orb concat_pieces].
    + destruct (starts_with_lf s) eqn:Hs.
      * by rewrite IH2, app_empty_l, (strip_breaks_lf _ Hs).
      * by rewrite IH1, app_empty_l.
    + by rewrite IH1, app_empty_l.
    + by rewrite IH1, app_assoc_s.
Qed.

(** X3: the pieces of a split, put together, are the text without its
    carriage returns and line feeds: nothing else is lost, nothing moves. *)
Theorem split_keeps_content (s : string) :
  concat_pieces (JS.split s line_sep) = strip_breaks s.
Proof.
  rewrite split_unfold, split_from_concat. apply app_empty_l.
Qed.

(** X1: lines without terminators, joined by "\r\n", by "\r" or by "\n",
    are split into the same lines again. *)
Theorem split_after_join (sep : string) (lines : list string) :
  is_line_break sep ->
  forallb break_free lines = true ->
  lines <> [] ->
  JS.split (join sep lines) line_sep = lines.
Proof.
  intros Hsep Hall Hne. destruct lines as [|l rest]; [done|].
  cbn [forallb] in Hall. apply andb_true_iff in Hall as [Hl Hrest].
  rewrite split_unfold, (split_from_join sep rest Hsep Hrest l EmptyString Hl).
  by rewrite app_empty_l.
Qed.

Lemma split_after_join_witness :
  is_line_break crlf
  /\ forallb break_free ["const a = 1;"; ""; "a;"] = true
  /\ ["const a = 1;"; ""; "a;"] <> ([] : list string)
  /\ JS.split (join crlf ["const a = 1;"; ""; "a;"]) line_sep = ["const a = 1;"; ""; "a;"].
Proof.
  assert (H1 : is_line_break crlf) by (left; reflexivity).
  assert (H3 : ["const a = 1;"; ""; "a;"] <> ([] : list string)) by discriminate.
  split; [exact H1|]. split; [reflexivity|]. split; [exact H3|].
  exact (split_after_join crlf ["const a = 1;"; ""; "a;"] H1 eq_refl H3).
Defined.

(** X4: writing the lines of any text out again with one terminator, and
    splitting that, gives the same lines: the choice of line ending does not
    show in what the component computes. *)
Theorem split_join_split (sep : string) (s : string) :
  is_line_break sep ->
  JS.split (join sep (JS.split s line_sep)) line_sep = JS.split s line_sep
  /\ editor_height (join sep (JS.split s line_sep)) = editor_height s.
Proof.
  intros Hsep.
  assert (H : JS.split (join sep (JS.split s line_sep)) line_sep = JS.split s line_sep).
  { apply split_join; [exact Hsep | |].
    { rewrite split_unfold. by apply split_from_break_free_pieces. }
    intros Hnil. pose proof (split_length s) as Hlen. by rewrite Hnil in Hlen. }
  split; [exact H|]. unfold editor_height. by rewrite H.
Qed.

Lemma split_join_split_witness :
  is_line_break lf
  /\ JS.split (join lf (JS.split (String "a" (cr +:+ crlf +:+ String "b" cr)) line_sep)) line_sep
     = ["a"; ""; "b"; ""].
Proof.
  assert (H1 : is_line_break lf) by (right; right; reflexivity).
  split; [exact H1|].
  exact (proj1 (split_join_split lf (String "a" (cr +:+ crlf +:+ String "b" cr)) H1)).
Defined.

(** A line feed at the front of a text counts unless a carriage return
    comes directly before it. *)
Lemma line_breaks_after_split b t :
  line_breaks t
  = (line_breaks_after b t + (if b && starts_with_lf t then 1 else 0))%nat.
Proof.
  unfold line_breaks. destruct b; cbn [andb]; [|lia].
  destruct (starts_with_lf t) eqn:Hlf.
  - destruct t as [|d t]; [discriminate|]. cbn [starts_with_lf] in Hlf.
    destruct (line_breaks_after_lf d t Hlf) as [-> ->]. lia.
  - rewrite (line_breaks_after_no_lf _ Hlf). lia.
Qed.

Lemma line_breaks_app_sum s t :
  (line_breaks (s +:+ t) + (if ends_with_cr false s && starts_with_lf t then 1 else 0)
   = line_breaks s + line_breaks t)%nat.
Proof.
  rewrite (line_breaks_after_split (ends_with_cr false s) t).
  unfold line_breaks at 1. rewrite line_breaks_after_app. unfold line_breaks. lia.
Qed.

Lemma starts_with_lf_app s t :
  starts_with_lf (s +:+ t) = match s with EmptyString => starts_with_lf t | _ => starts_with_lf s end.
Proof. by destruct s. Qed.

(** X5: the height of two texts written one after the other is the sum of
    their heights less the 20 of one line and one padding, and less one more
    line when the first ends in a carriage return and the second starts with
    a line feed. *)
Theorem height_app (s t : string) :
  editor_height (s +:+ t)
  = editor_height s + editor_height t - (lineHeightConstant + paddingConstant)
    - (if ends_with_cr false s && starts_with_lf t then lineHeightConstant else 0).
Proof.
  rewrite !editor_height_line_breaks.
  pose proof (line_breaks_app_sum s t) as H.
  unfold lineHeightConstant, paddingConstant.
  destruct (ends_with_cr false s && starts_with_lf t); lia.
Qed.

Lemma line_breaks_break_free s : break_free s = true -> line_breaks s = O.
Proof.
  unfold line_breaks. induction s as [|c s IH]; [reflexivity|].
  cbn [break_free line_breaks_after]. intros H.
  apply andb_true_iff in H as [H Hs]. apply andb_true_iff in H as [Hcr Hlf].
  apply negb_true_iff in Hcr, Hlf. rewrite Hcr, Hlf. by rewrite (IH Hs).
Qed.

Lemma line_breaks_zero s : line_breaks s = O -> break_free s = true.
Proof.
  unfold line_breaks. induction s as [|c s IH]; [reflexivity|].
  cbn [break_free line_breaks_after].
  destruct (Ascii.eqb c JS.CR); [intros H; lia|].
  destruct (Ascii.eqb c JS.LF); [intros H; lia|].
  intros H. cbn. apply IH. lia.
Qed.

Lemma ends_with_cr_break_free b s :
  break_free s = true -> ends_with_cr b s = match s with EmptyString => b | _ => false end.
Proof.
  revert b. induction s as [|c s IH]; intros b; [reflexivity|].
  cbn [break_free ends_with_cr]. intros H.
  apply andb_true_iff in H as [H Hs]. apply andb_true_iff in H as [Hcr _].
  apply negb_true_iff in Hcr. rewrite Hcr, (IH _ Hs). by destruct s.
Qed.

(** X6: text without terminators, typed anywhere into the buffer, leaves the
    height as it is, except between a carriage return and the line feed that
    follows it: there the pair is broken in two and one line is added. *)
Theorem height_insert_plain_text (pre ins post : string) :
  break_free ins = true ->
  editor_height (pre +:+ ins +:+ post)
  = editor_height (pre +:+ post)
    + (if negb (bool_decide (ins = EmptyString))
          && ends_with_cr false pre && starts_with_lf post
       then lineHeightConstant else 0).
Proof.
  intros Hins. rewrite !editor_height_line_breaks.
  pose proof (line_breaks_app_sum pre (ins +:+ post)) as H1.
  pose proof (line_breaks_app_sum ins post) as H2.
  pose proof (line_breaks_app_sum pre post) as H3.
  rewrite (line_breaks_break_free _ Hins) in H2.
  rewrite (ends_with_cr_break_free _ _ Hins) in H2.
  rewrite (starts_with_lf_break_free _ _ Hins) in H1.
  unfold lineHeightConstant, paddingConstant.
  destruct ins as [|c ins]; cbn [negb andb bool_decide] in *.
  - rewrite bool_decide_eq_true_2 by done. cbn [negb andb]. lia.
  - rewrite bool_decide_eq_false_2 by done. rewrite andb_false_r in H1.
    cbn [negb andb] in *.
    destruct (ends_with_cr false pre && starts_with_lf post); lia.
Qed.

Lemma height_insert_plain_text_witness :
  break_free "x" = true
  /\ editor_height (String "a" cr +:+ "x" +:+ String JS.LF "b")
     = editor_height (String "a" cr +:+ String JS.LF "b") + lineHeightConstant
  /\ editor_height ("a" +:+ "x" +:+ String JS.LF "b")
     = editor_height ("a" +:+ String JS.LF "b") + 0.
Proof.
  split; [reflexivity|]. split.
  - exact (height_insert_plain_text (String "a" cr) "x" (String JS.LF "b") eq_refl).
  - exact (height_insert_plain_text "a" "x" (String JS.LF "b") eq_refl).
Defined.

Lemma line_breaks_after_le_length b s :
  (line_breaks_after b s <= String.length s)%nat.
Proof.
  revert b. induction s as [|c s IH]; intros b; [reflexivity|].
  cbn [line_breaks_after String.length]. specialize (IH (Ascii.eqb c JS.CR)).
  destruct (Ascii.eqb c JS.CR); [lia|]. destruct (Ascii.eqb c JS.LF); [destruct b|]; lia.
Qed.

(** X7: the height is at least that of one line, 20, and at most that of
    one line per code unit and one more; it is 20 exactly for a text
    without terminators, the empty text among them. *)
Theorem height_bounds (s : string) :
  lineHeightConstant + paddingConstant <= editor_height s
  /\ editor_height s
     <= (Z.of_nat (String.length s) + 1) * lineHeightConstant + paddingConstant
  /\ (editor_height s = lineHeightConstant + paddingConstant <-> break_free s = true).
Proof.
  rewrite editor_height_line_breaks.
  pose proof (line_breaks_after_le_length false s) as Hle. fold (line_breaks s) in Hle.
  unfold lineHeightConstant, paddingConstant.
  split; [lia|]. split; [lia|]. split.
  - intros H. apply line_breaks_zero. lia.
  - intros H. rewrite (line_breaks_break_free _ H). lia.
Qed.

(** X8: what one terminator, inserted anywhere, does to the height.  A line
    feed adds a line unless it completes a pair with a carriage return before
    it; a carriage return adds a line unless it completes a pair with a line
    feed after it; a "\r\n" adds a line, and a second one when it is put
    between the two halves of a pair. *)
Theorem height_insert_terminator (pre post : string) :
  editor_height (pre +:+ lf +:+ post)
  = editor_height (pre +:+ post)
    + (if ends_with_cr false pre && negb (starts_with_lf post)
       then 0 else lineHeightConstant)
  /\ editor_height (pre +:+ cr +:+ post)
     = editor_height (pre +:+ post)
       + (if negb (ends_with_cr false pre) && starts_with_lf post
          then 0 else lineHeightConstant)
  /\ editor_height (pre +:+ crlf +:+ post)
     = editor_height (pre +:+ post)
       + (if ends_with_cr false pre && starts_with_lf post
          then 2 * lineHeightConstant else lineHeightConstant).
Proof.
  rewrite !editor_height_line_breaks.
  pose proof (line_breaks_app_sum pre post) as H0.
  pose proof (line_breaks_app_sum pre (lf +:+ post)) as Hlf1.
  pose proof (line_breaks_app_sum lf post) as Hlf2.
  pose proof (line_breaks_app_sum pre (cr +:+ post)) as Hcr1.
  pose proof (line_breaks_app_sum cr post) as Hcr2.
  pose proof (line_breaks_app_sum pre (crlf +:+ post)) as Hcrlf1.
  pose proof (line_breaks_app_sum crlf post) as Hcrlf2.
  rewrite starts_with_lf_app in Hlf1, Hcr1, Hcrlf1.
  change (line_breaks lf) with 1%nat in Hlf2.
  change (line_breaks cr) with 1%nat in Hcr2.
  change (line_breaks crlf) with 1%nat in Hcrlf2.
  cbn [lf cr crlf ends_with_cr starts_with_lf] in *.
  change (Ascii.eqb JS.LF JS.CR) with false in *.
  change (Ascii.eqb JS.CR JS.CR) with true in *.
  change (Ascii.eqb JS.LF JS.LF) with true in *.
  change (Ascii.eqb JS.CR JS.LF) with false in *.
  unfold lineHeightConstant, paddingConstant.
  destruct (ends_with_cr false pre), (starts_with_lf post); cbn [andb negb] in *; lia.
Qed.

Lemma line_breaks_after_insert ins :
  forall b post,
    (line_breaks_after b post
     <= line_breaks_after b ins + line_breaks_after (ends_with_cr b ins) post)%nat.
Proof.
  induction ins as [|c ins IH]; intros b post; [cbn; lia|].
  cbn [line_breaks_after ends_with_cr].
  specialize (IH (Ascii.eqb c JS.CR) post).
  pose proof (line_breaks_after_split b post) as Hb.
  pose proof (line_breaks_after_split (Ascii.eqb c JS.CR) post) as Hc.
  destruct (Ascii.eqb c JS.CR); cbn [andb] in *.
  - destruct (b && starts_with_lf post), (starts_with_lf post); lia.
  - destruct (b && starts_with_lf post); destruct (Ascii.eqb c JS.LF); destruct b; lia.
Qed.

(** X9: text inserted anywhere into the buffer never lowers the height, and
    so text deleted never raises it. *)
Theorem height_insert_monotone (pre ins post : string) :
  editor_height (pre +:+ post) <= editor_height (pre +:+ ins +:+ post).
Proof.
  rewrite !editor_height_line_breaks. unfold line_breaks.
  rewrite !line_breaks_after_app.
  pose proof (line_breaks_after_insert ins (ends_with_cr false pre) post) as H.
  unfold lineHeightConstant, paddingConstant. lia.
Qed.

(** * Further properties of the component's state *)

Lemma buffer_string_cell props src :
  buffer {| inst_props := props; inst_code := NodeString src |}
  = if bool_decide (className props = Some "lang-tsx") then Some src else None.
Proof.
  unfold buffer, render, Editor. cbn [inst_props inst_code snd useState narrow_string].
  by case_bool_decide.
Qed.

Lemma change_cell newCode i i' :
  change newCode i = Some i' ->
  inst_props i' = inst_props i /\ inst_code i' = NodeString newCode
  /\ is_Some (narrow_string (inst_code i)).
Proof.
  unfold change, render, Editor. cbn [snd useState].
  case_bool_decide; [|discriminate].
  destruct (narrow_string (inst_code i)) as [src|]; [|discriminate].
  cbn. intros [= <-]. cbn. eauto.
Qed.

Lemma play_string_cell acts :
  forall i i' text,
    inst_code i = NodeString text ->
    play acts i = Some i' ->
    inst_code i' = NodeString (last_edit acts text)
    /\ inst_props i' = last_props acts (inst_props i).
Proof.
  induction acts as [|[props|newCode] acts IH]; intros i i' text Hcode Hplay;
    cbn [play last_edit last_props] in *.
  - injection Hplay as <-. done.
  - apply (IH (rerender props i) i' text); [|exact Hplay].
    unfold rerender, Editor. cbn [inst_code fst useState]. exact Hcode.
  - destruct (change newCode i) as [i1|] eqn:Hch; [|discriminate]. cbn in Hplay.
    destruct (change_cell _ _ _ Hch) as (Hp & Hc & _).
    rewrite <- Hp. by apply (IH i1 i' newCode).
Qed.

(** X10: a component first rendered with a text keeps, whatever renders and
    edits follow, a text in its cell: the last one typed, or the first one
    rendered while nothing was typed.  Texts passed by later renders are
    never read: a later render decides by its tag alone whether the cell is
    shown in an editor. *)
Theorem cell_after_renders_and_edits (props : EditorProps) (text : string)
    (acts : list InstAction) (i : Instance) :
  children props = NodeString text ->
  play acts (mount props) = Some i ->
  inst_code i = NodeString (last_edit acts text)
  /\ buffer i = (if bool_decide (className (last_props acts props) = Some "lang-tsx")
                then Some (last_edit acts text) else None).
Proof.
  intros Hchildren Hplay.
  destruct (play_string_cell acts (mount props) i text) as [Hc Hp]; [|exact Hplay|].
  { unfold mount, Editor. cbn [inst_code fst useState]. exact Hchildren. }
  split; [exact Hc|]. cbn [mount inst_props] in Hp.
  destruct i as [p c]. cbn [inst_code inst_props] in *. subst p c.
  apply buffer_string_cell.
Qed.

Lemma cell_after_renders_and_edits_witness :
  children bash_block = NodeString "echo hi"
  /\ play [Rendered (tsx_block "const a = 1;")] (mount bash_block)
     = Some {| inst_props := tsx_block "const a = 1;"; inst_code := NodeString "echo hi" |}
  /\ buffer {| inst_props := tsx_block "const a = 1;"; inst_code := NodeString "echo hi" |}
     = Some "echo hi".
Proof.
  split; [reflexivity|]. split; [reflexivity|].
  exact (proj2 (cell_after_renders_and_edits bash_block "echo hi"
                  [Rendered (tsx_block "const a = 1;")] _ eq_refl eq_refl)).
Defined.

Lemma play_other_cell acts :
  forall i i',
    narrow_string (inst_code i) = None ->
    play acts i = Some i' ->
    inst_code i' = inst_code i /\ forallb is_render acts = true.
Proof.
  induction acts as [|[props|newCode] acts IH]; intros i i' Hcode Hplay;
    cbn [play forallb is_render] in *.
  - injection Hplay as <-. done.
  - destruct (IH (rerender props i) i') as [H1 H2]; [exact Hcode | exact Hplay |].
    split; [exact H1 | exact H2].
  - destruct (change newCode i) as [i1|] eqn:Hch; [|discriminate].
    destruct (change_cell _ _ _ Hch) as (_ & _ & [src Hsrc]). congruence.
Qed.

(** X11: a component first rendered with children that are no string never
    shows an editor, whatever it is rendered with later, a text under the
    live tag included: its cell stays what it was, every render gives the
    [<span>] around the children of that render, and no edit can reach it. *)
Theorem never_live_without_first_text (props : EditorProps)
    (acts : list InstAction) (i : Instance) :
  typeof (children props) <> JS.TString ->
  play acts (mount props) = Some i ->
  inst_code i = children props
  /\ buffer i = None
  /\ render i = static_element (children (inst_props i))
  /\ forallb is_render acts = true
  /\ forall newCode, change newCode i = None.
Proof.
  intros Hty Hplay.
  assert (Hnone : narrow_string (children props) = None).
  { destruct (narrow_string (children props)) eqn:E; [|reflexivity].
    exfalso. apply Hty. apply narrow_string_typeof. by eexists. }
  destruct (play_other_cell acts (mount props) i) as [Hc Hr]; [exact Hnone | exact Hplay |].
  cbn [mount inst_code Editor fst useState] in Hc.
  assert (Hrender : render i = static_element (children (inst_props i))).
  { unfold render. apply Editor_static_code. cbn [useState]. by rewrite Hc. }
  split; [exact Hc|]. split; [|split; [exact Hrender|split; [exact Hr|]]].
  - unfold buffer. by rewrite Hrender.
  - intros newCode. unfold change. by rewrite Hrender.
Qed.

Lemma never_live_without_first_text_witness :
  typeof NodeUndefined <> JS.TString
  /\ play [Rendered (tsx_block "const a = 1;")]
          (mount {| children := NodeUndefined; className := Some "lang-tsx" |})
     = Some {| inst_props := tsx_block "const a = 1;"; inst_code := NodeUndefined |}
  /\ render {| inst_props := tsx_block "const a = 1;"; inst_code := NodeUndefined |}
     = static_element (NodeString "const a = 1;").
Proof.
  assert (H : typeof NodeUndefined <> JS.TString) by discriminate.
  split; [exact H|]. split; [reflexivity|].
  exact (proj1 (proj2 (proj2 (never_live_without_first_text
           {| children := NodeUndefined; className := Some "lang-tsx" |}
           [Rendered (tsx_block "const a = 1;")] _ H eq_refl)))).
Defined.
